(** * rad-flux: the data store and the action registry

    A shallow embedding of the class [DataStore] (the data store source)
    and of the class [Actions] ([src/actions.js]), and the properties their
    specification states about them.

    Conventions of the embedding.

    - JavaScript values are finite trees: primitives, function objects
      (known by their identity only) and objects, an object being its class
      (plain [Object] or [Array]) and the list of its own enumerable
      properties in enumeration order.  An array is the object whose
      properties are its indices.  The state of a store is such a tree
      (sharing between a patch and the state, and cyclic states, are not
      represented).
    - Property names are own names: a name is looked up in the property
      list only, never in [Object.prototype]; a primitive has no property.
    - In-place mutation is explicit state passing: a method returns the
      object after the call.  A method that throws returns the object as
      the exception left it, which is what a caller catching the exception
      sees.
    - Subscribers and handlers are foreign code.  Each call the library
      makes to one of them is recorded, with its arguments, in a trace, and
      is taken to return; what a callback does on its own (throwing,
      calling back into the library) is outside the embedding. *)

From Stdlib Require Import ZArith.
From stdpp Require Import base option list strings gmap.

Local Open Scope string_scope.
Local Open Scope list_scope.
Set Warnings "-register-all".

(** ** JavaScript values *)

Module Js.

(** The class of an object: what [obj.constructor] is. *)
Inductive jsclass : Type := ClsObject | ClsArray.

(** A function object is known by its identity (the reference). *)
Definition fn : Type := nat.

Inductive value : Type :=
| VUndefined
| VNull
| VBool (b : bool)
| VNum (n : Z)
| VStr (s : string)
| VFun (f : fn)
| VObj (c : jsclass) (props : list (string * value)).

(** The result of the [typeof] operator. *)
Inductive jstype : Type :=
| TUndefined | TObject | TBoolean | TNumber | TString | TFunction.

Definition typeof (v : value) : jstype :=
  match v with
  | VUndefined => TUndefined
  | VNull => TObject
  | VBool _ => TBoolean
  | VNum _ => TNumber
  | VStr _ => TString
  | VFun _ => TFunction
  | VObj _ _ => TObject
  end.

Definition is_object_type (v : value) : bool :=
  match typeof v with TObject => true | _ => false end.

(** [v === null] *)
Definition is_null (v : value) : bool :=
  match v with VNull => true | _ => false end.

(** [v === null || v === undefined] *)
Definition is_nullish (v : value) : bool :=
  match v with VNull | VUndefined => true | _ => false end.

(** ToBoolean, as [||] and [if] apply it. *)
Definition truthy (v : value) : bool :=
  match v with
  | VUndefined | VNull => false
  | VBool b => b
  | VNum n => negb (n =? 0)%Z
  | VStr s => negb (String.eqb s "")
  | VFun _ | VObj _ _ => true
  end.

(** What a call can throw: a [TypeError] or an [Error] the library
    raises with [throw new ...(msg)], or the [TypeError] the engine
    raises on a property access it cannot perform. *)
Inductive error : Type :=
| TypeError (msg : string)
| Error (msg : string)
| EngineTypeError.

Definition is_TypeError (e : error) : bool :=
  match e with TypeError _ | EngineTypeError => true | Error _ => false end.

(** The calls made to foreign functions. *)
Inductive event : Type :=
| Notify (each : fn) (data : value)              (* each(data) *)
| Handle (func : fn) (done : string) (args : value).
    (* func(done, args), done = buildDoneFunction(key) *)

(** *** Property lists *)

Fixpoint props_get (key : string) (ps : list (string * value)) : option value :=
  match ps with
  | [] => None
  | (k, v) :: rest => if String.eqb key k then Some v else props_get key rest
  end.

(** Assignment keeps the place of an existing property and appends a new one. *)
Fixpoint props_set (key : string) (x : value) (ps : list (string * value))
  : list (string * value) :=
  match ps with
  | [] => [(key, x)]
  | (k, v) :: rest =>
      if String.eqb key k then (k, x) :: rest else (k, v) :: props_set key x rest
  end.

Fixpoint props_delete (key : string) (ps : list (string * value))
  : list (string * value) :=
  match ps with
  | [] => []
  | (k, v) :: rest =>
      if String.eqb key k then rest else (k, v) :: props_delete key rest
  end.

(** *** Property access on a value

    Each operation returns the receiver after the operation and the
    exception, if one is thrown.  The code is strict (a class body in a
    module), so assigning to a property of a primitive throws.  A
    function object carries no property table here and is treated as a
    primitive receiver. *)

(** [o[key]] *)
Definition get (o : value) (key : string) : value + error :=
  match o with
  | VObj _ ps => inl (default VUndefined (props_get key ps))
  | VUndefined | VNull => inr EngineTypeError
  | _ => inl VUndefined
  end.

(** [o[key] = x] *)
Definition put (o : value) (key : string) (x : value) : value * option error :=
  match o with
  | VObj c ps => (VObj c (props_set key x ps), None)
  | _ => (o, Some EngineTypeError)
  end.

(** [delete o[key]] *)
Definition delete (o : value) (key : string) : value * option error :=
  match o with
  | VObj c ps => (VObj c (props_delete key ps), None)
  | VUndefined | VNull => (o, Some EngineTypeError)
  | _ => (o, None)
  end.

(** The object literal [{ k1: v1, ... }]. *)
Definition obj (ps : list (string * value)) : value := VObj ClsObject ps.

(** The array literal of the given indexed elements, [arr [("0", a); ("1", b)]]
    for [[a, b]]. *)
Definition arr (ps : list (string * value)) : value := VObj ClsArray ps.

(** A plain mapping: an object whose constructor is [Object]. *)
Definition is_mapping (v : value) : bool :=
  match v with VObj ClsObject _ => true | _ => false end.



(** [v[k1][k2]...], [undefined] when a step cannot be taken. *)
Fixpoint at_path (v : value) (path : list string) : value :=
  match path with
  | [] => v
  | key :: rest =>
      match get v key with
      | inl x => at_path x rest
      | inr _ => VUndefined
      end
  end.

(** The number of objects in a value. *)
Fixpoint size (v : value) : nat :=
  match v with
  | VObj _ ps =>
      S ((fix sum (ps : list (string * value)) : nat :=
            match ps with
            | [] => 0
            | (_, x) :: rest => size x + sum rest
            end) ps)
  | _ => 0
  end.



(** The number of entries of [l] that are the function [f]. *)
Definition occurrences (f : fn) (l : list fn) : nat :=
  length (List.filter (Nat.eqb f) l).

(** [subscribers.includes(callback)] on a list of function objects. *)
Definition includes (callback : fn) (l : list fn) : bool :=
  existsb (Nat.eqb callback) l.

(** The loop of [unsubscribe]: splice out the first entry [=== callback]. *)
Fixpoint splice_first (callback : fn) (l : list fn) : list fn :=
  match l with
  | [] => []
  | each :: rest =>
      if Nat.eqb callback each then rest else each :: splice_first callback rest
  end.

(** [for (const each of subscribers) each(data)] *)
Definition notify (subscribers : list fn) (data : value) : list event :=
  map (fun each => Notify each data) subscribers.

(** The function an event is a call to. *)
Definition callee (e : event) : fn :=
  match e with Notify each _ => each | Handle func _ _ => func end.

(** The number of calls made to the function [f]. *)
Definition calls_to (f : fn) (calls : list event) : nat :=
  length (List.filter (fun e => Nat.eqb (callee e) f) calls).

End Js.

Import Js.

(** ** The class [DataStore] *)

Module DataStore.

Record store : Type := { state : value; subscribers : list fn }.

(** What a method call leaves behind: the store after it, the value it
    returned, the foreign calls it made, the exception it threw. *)
Record outcome : Type := {
  after : store;
  returned : value;
  trace : list event;
  thrown : option error
}.

(** [constructor(initState)] *)
Definition constructor (initState : value) : store :=
  {| state := if truthy initState then initState else VObj ClsObject [];
     subscribers := [] |}.

Definition must_be_object : error :=
  TypeError "DataStore.setState: newState must be an object".

(** The body of the loop [for (const key in newState)] of [setState],
    for the call [recurse] that [this.setState(newState[key], stem[key])]
    makes.  The loop carries the stem and the subscriber calls made so
    far, and stops at the first exception. *)
Section ForKeyIn.

Variable recurse : value -> value -> value * list event * option error.

Definition for_key (stem : value) (calls : list event)
    (key : string) (item : value) : value * list event * option error :=
  if is_nullish item then
    let '(stem', exn) := delete stem key in (stem', calls, exn)
  else if is_object_type item then
    match get stem key with
    | inr e => (stem, calls, Some e)
    | inl cur =>
        if is_object_type cur then
          (* the recursive call mutates the object [stem[key]] refers to *)
          let '(cur', inner, exn) := recurse item cur in
          (fst (put stem key cur'), calls ++ inner, exn)
        else
          let '(stem', exn) := put stem key item in (stem', calls, exn)
    end
  else
    let '(stem', exn) := put stem key item in (stem', calls, exn).

Fixpoint for_key_in (ps : list (string * value)) (stem : value)
    (calls : list event) : value * list event * option error :=
  match ps with
  | [] => (stem, calls, None)
  | (key, item) :: rest =>
      let '(stem', calls', exn) := for_key stem calls key item in
      match exn with
      | Some e => (stem', calls', Some e)
      | None => for_key_in rest stem' calls'
      end
  end.

End ForKeyIn.

(** [setState(newState, stem = this.state)].

    The function returns [stem] after the call, the subscriber calls
    made and the exception thrown.  [stem_is_state] is the outcome of the
    identity test [stem === this.state]: the state being a tree, the
    recursive call, whose stem is a property value of the current stem,
    passes [false] (an object reached from the state by a path of keys is
    not the state, [object_below_is_another]); the call with the defaulted
    stem passes [true] ([setState_default] below).

    The outer match is the guard
    [typeof newState !== 'object' || newState === null ||
     newState.constructor !== Object]. *)
Fixpoint setState (this : store) (newState stem : value) (stem_is_state : bool)
  {struct newState} : value * list event * option error :=
  match newState with
  | VObj ClsObject props =>
      let '(stem', calls, exn) :=
        for_key_in (fun item cur => setState this item cur false) props stem [] in
      match exn with
      | Some e => (stem', calls, Some e)
      | None =>
          if stem_is_state
          then (stem', calls ++ notify (subscribers this) stem', None)
          else (stem', calls, None)
      end
  | _ => (stem, [], Some must_be_object)
  end.

Definition stem_of (r : value * list event * option error) : value := r.1.1.
Definition calls_of (r : value * list event * option error) : list event := r.1.2.
Definition exn_of (r : value * list event * option error) : option error := r.2.

(** [store.setState(newState)]: the stem is [this.state]. *)
Definition setState_default (this : store) (newState : value) : outcome :=
  let '(stem', calls, exn) := setState this newState (state this) true in
  {| after := {| state := stem'; subscribers := subscribers this |};
     returned := VUndefined; trace := calls; thrown := exn |}.

(** [replaceState(newState)] *)
Definition replaceState (this : store) (newState : value) : outcome :=
  if negb (is_object_type newState) || is_null newState then
    {| after := this; returned := VUndefined; trace := []; thrown := None |}
  else
    {| after := {| state := newState; subscribers := subscribers this |};
       returned := VUndefined;
       trace := notify (subscribers this) newState;
       thrown := None |}.

(** [onStateChanged(callback)] *)
Definition onStateChanged (this : store) (callback : value) : outcome :=
  match callback with
  | VFun f =>
      if negb (includes f (subscribers this)) then
        {| after := {| state := state this;
                       subscribers := subscribers this ++ [f] |};
           returned := callback; trace := []; thrown := None |}
      else
        {| after := this; returned := VUndefined; trace := []; thrown := None |}
  | _ => {| after := this; returned := VUndefined; trace := []; thrown := None |}
  end.

(** [unsubscribe(callback)] *)
Definition unsubscribe (this : store) (callback : value) : outcome :=
  {| after := {| state := state this;
                 subscribers :=
                   match callback with
                   | VFun f => splice_first f (subscribers this)
                   | _ => subscribers this
                   end |};
     returned := VUndefined; trace := []; thrown := None |}.



Definition watched_store : store :=
  after (onStateChanged
           (after (onStateChanged (constructor (obj [("a", VNum 1)])) (VFun 1)))
           (VFun 2)).

Definition albums_store : store :=
  after (onStateChanged
           (constructor (obj [("bestAlbums", arr [("0", VStr "Currents")])]))
           (VFun 1)).

Definition albums_patch : value :=
  obj [("bestAlbums", arr [("0", VStr "Lonerism")])].

(** A state holding [null] at ["k"], from the constructor and from
    [replaceState], with one subscriber; and a patch with a mapping at
    ["k"] after the key ["a"]. *)
Definition null_store : store :=
  after (onStateChanged (constructor (obj [("a", VNum 1); ("k", VNull)])) (VFun 1)).

Definition null_store_replaced : store :=
  after (replaceState (after (onStateChanged (constructor VUndefined) (VFun 1)))
                      (obj [("a", VNum 1); ("k", VNull)])).

Definition null_patch : value := obj [("a", VNum 2); ("k", obj [("x", VNum 10)])].

(** The stores a program obtains from the constructor and the methods. *)
Inductive reachable : store -> Prop :=
| reach_constructor initState :
    reachable (constructor initState)
| reach_setState this newState :
    reachable this -> reachable (after (setState_default this newState))
| reach_replaceState this newState :
    reachable this -> reachable (after (replaceState this newState))
| reach_onStateChanged this callback :
    reachable this -> reachable (after (onStateChanged this callback))
| reach_unsubscribe this callback :
    reachable this -> reachable (after (unsubscribe this callback)).



End DataStore.

(** ** The class [Actions] ([src/actions.js]) *)

Module Actions.

(** The record kept for an action: [{ subscribers, func }]. *)
Record action : Type := { subscribers : list fn; func : value }.

(** [this.actions]: the action records by action name.  A lookup that
    gives [None] is [this.actions[key] === undefined]. *)
Abbreviation registry := (gmap string action).

Record outcome : Type := {
  after : registry;
  returned : value;
  trace : list event;
  thrown : option error
}.

Definition returns (this : registry) (v : value) (calls : list event) : outcome :=
  {| after := this; returned := v; trace := calls; thrown := None |}.

Definition throws (this : registry) (e : error) : outcome :=
  {| after := this; returned := VUndefined; trace := []; thrown := Some e |}.

(** [constructor(actions)]: every key of the object passed in gets the
    record [{ subscribers: [], func: null }]; the values are ignored. *)
Definition constructor (actions : list (string * value)) : registry :=
  fold_left (fun this kv => <[kv.1 := {| subscribers := []; func := VNull |}]> this)
            actions ∅.

Definition key_must_be_string (method : string) : error :=
  TypeError ("Actions." +:+ method +:+ ": key argument must be a string").

Definition not_declared : error :=
  Error "Actions.register: action not declared, please add it to the constructor".

Definition already_registered : error :=
  Error "Actions.register: action already registered".

(** [register(key, func)].  [Object.defineProperty] replaces the record
    of [key] by the new one (the property the constructor defined on the
    object literal is configurable). *)
Definition register (this : registry) (key func : value) : outcome :=
  match key with
  | VStr k =>
      match func with
      | VFun _ =>
          match this !! k with
          | None => throws this not_declared
          | Some action =>
              if negb (is_null (Actions.func action))
              then throws this already_registered
              else returns (<[k := {| subscribers := []; func := func |}]> this)
                           VUndefined []
          end
      | _ => throws this
               (TypeError "Actions.register: func argument must be a function")
      end
  | _ => throws this (key_must_be_string "register")
  end.

(** [publish(key, data)] *)
Definition publish (this : registry) (key : string) (data : value) : outcome :=
  match this !! key with
  | Some action => returns this VUndefined (notify (subscribers action) data)
  | None => returns this VUndefined []
  end.

(** [buildDoneFunction(key)]: the closure [function (data) {
    actions.publish(key, data) }], applied to the registry as it is when
    the closure is called. *)
Definition buildDoneFunction (key : string) : registry -> value -> outcome :=
  fun actions data => publish actions key data.

(** [call(key, args)].  The handler receives [buildDoneFunction(key)]
    and [args]; without a handler the call is [this.publish(key)], whose
    [data] parameter is then [undefined]. *)
Definition call (this : registry) (key : string) (args : value) : outcome :=
  match this !! key with
  | Some action =>
      match func action with
      | VFun f => returns this VUndefined [Handle f key args]
      | _ => publish this key VUndefined
      end
  | None => returns this VUndefined []
  end.

(** [on(key, callback)].  Reading [.subscribers] of an undeclared action
    is a property access on [undefined]. *)
Definition on (this : registry) (key callback : value) : outcome :=
  match key with
  | VStr k =>
      match callback with
      | VFun f =>
          match this !! k with
          | None => throws this EngineTypeError
          | Some action =>
              if negb (includes f (subscribers action)) then
                returns (<[k := {| subscribers := subscribers action ++ [f];
                                   func := func action |}]> this)
                        callback []
              else returns this VUndefined []
          end
      | _ => throws this
               (TypeError "Actions.on: callback argument must be a function")
      end
  | _ => throws this (key_must_be_string "on")
  end.

(** [unsubscribe(key, callback)] *)
Definition unsubscribe (this : registry) (key : string) (callback : value)
  : outcome :=
  match this !! key with
  | Some action =>
      match callback with
      | VFun f =>
          returns (<[key := {| subscribers := splice_first f (subscribers action);
                               func := func action |}]> this)
                  VUndefined []
      | _ => returns this VUndefined []
      end
  | None => returns this VUndefined []
  end.

(** Registries used as examples: one declared action, without and with
    a subscriber. *)
Definition one_action : registry := constructor [("a", VNull)].

Definition subscribed : registry := after (on one_action (VStr "a") (VFun 1)).

(** A handler registered, then two subscribers. *)
Definition handled : registry :=
  after (on (after (on (after (register one_action (VStr "a") (VFun 9)))
                       (VStr "a") (VFun 1)))
            (VStr "a") (VFun 2)).

(** The registries a program obtains from the constructor and the
    methods that change the registry. *)
Inductive reachable : registry -> Prop :=
| reach_constructor actions :
    reachable (constructor actions)
| reach_register this key func :
    reachable this -> reachable (after (register this key func))
| reach_on this key callback :
    reachable this -> reachable (after (on this key callback))
| reach_unsubscribe this key callback :
    reachable this -> reachable (after (unsubscribe this key callback)).

(** The subscribers of an action, none for an undeclared name. *)
Definition subscribers_of (this : registry) (key : string) : list fn :=
  match this !! key with Some action => subscribers action | None => [] end.

End Actions.

(** ** dist/index.es5.js

    The distributed build was made from another revision of the sources.
    Its registry differs from [src/actions.js] in two places: [register] is
    named [registerAsync], and [call] forwards its second argument to
    [publish] when no handler is registered.  Its store tests values with
    [isObject] where the source of [DataStore] tests [typeof]. *)

Module Dist.

Import Actions.

Definition call (this : registry) (key : string) (data : value) : outcome :=
  match this !! key with
  | Some action =>
      match func action with
      | VFun f => returns this VUndefined [Handle f key data]
      | _ => publish this key data
      end
  | None => returns this VUndefined []
  end.

(** [registerAsync(key, func)], the body of [register] under its other name. *)
Definition registerAsync (this : registry) (key func : value) : outcome :=
  match key with
  | VStr k =>
      match func with
      | VFun _ =>
          match this !! k with
          | None =>
              throws this
                (Error "Actions.registerAsync: action not declared, please add it to the constructor")
          | Some action =>
              if negb (is_null (Actions.func action))
              then throws this (Error "Actions.registerAsync: action already registered")
              else returns (<[k := {| subscribers := []; func := func |}]> this)
                           VUndefined []
          end
      | _ => throws this
               (TypeError "Actions.registerAsync: func argument must be a function")
      end
  | _ => throws this (key_must_be_string "registerAsync")
  end.

(** [isObject(obj)]: not [null], an [Object], and of class
    [[object Object]]. *)
Definition isObject (v : value) : bool := is_mapping v.

Section ForKeyIn.

Variable recurse : value -> value -> value * list event * option error.

Definition for_key (stem : value) (calls : list event)
    (key : string) (item : value) : value * list event * option error :=
  if is_nullish item then
    let '(stem', exn) := delete stem key in (stem', calls, exn)
  else if isObject item then
    match get stem key with
    | inr e => (stem, calls, Some e)
    | inl cur =>
        if isObject cur then
          let '(cur', inner, exn) := recurse item cur in
          (fst (put stem key cur'), calls ++ inner, exn)
        else
          let '(stem', exn) := put stem key item in (stem', calls, exn)
    end
  else
    let '(stem', exn) := put stem key item in (stem', calls, exn).

Fixpoint for_key_in (ps : list (string * value)) (stem : value)
    (calls : list event) : value * list event * option error :=
  match ps with
  | [] => (stem, calls, None)
  | (key, item) :: rest =>
      let '(stem', calls', exn) := for_key stem calls key item in
      match exn with
      | Some e => (stem', calls', Some e)
      | None => for_key_in rest stem' calls'
      end
  end.

End ForKeyIn.

Fixpoint setState (this : DataStore.store) (newState stem : value)
    (stem_is_state : bool) {struct newState}
  : value * list event * option error :=
  match newState with
  | VObj ClsObject props =>
      let '(stem', calls, exn) :=
        for_key_in (fun item cur => setState this item cur false) props stem [] in
      match exn with
      | Some e => (stem', calls, Some e)
      | None =>
          if stem_is_state
          then (stem', calls ++ notify (DataStore.subscribers this) stem', None)
          else (stem', calls, None)
      end
  | _ => (stem, [], Some DataStore.must_be_object)
  end.

Definition setState_default (this : DataStore.store) (newState : value)
  : DataStore.outcome :=
  let '(stem', calls, exn) := setState this newState (DataStore.state this) true in
  {| DataStore.after := {| DataStore.state := stem';
                           DataStore.subscribers := DataStore.subscribers this |};
     DataStore.returned := VUndefined;
     DataStore.trace := calls;
     DataStore.thrown := exn |}.

End Dist.

(** ** Sequences of calls *)

Module Calls.

(** [onStateChanged(f)] for each function of a list, in order. *)
Definition onStateChanged_each (this : DataStore.store) (callbacks : list fn)
  : DataStore.store :=
  fold_left (fun store f => DataStore.after (DataStore.onStateChanged store (VFun f)))
            callbacks this.

(** [on(key, f)] for each function of a list, in order. *)
Definition on_each (this : Actions.registry) (key : string) (callbacks : list fn)
  : Actions.registry :=
  fold_left (fun actions f => Actions.after (Actions.on actions (VStr key) (VFun f)))
            callbacks this.

(** One method call on a registry, with any arguments. *)
Inductive step : Actions.registry -> Actions.registry -> Prop :=
| step_register this key func :
    step this (Actions.after (Actions.register this key func))
| step_call this key args :
    step this (Actions.after (Actions.call this key args))
| step_publish this key data :
    step this (Actions.after (Actions.publish this key data))
| step_on this key callback :
    step this (Actions.after (Actions.on this key callback))
| step_unsubscribe this key callback :
    step this (Actions.after (Actions.unsubscribe this key callback)).

(** Any number of method calls. *)
Definition evolves : Actions.registry -> Actions.registry -> Prop := rtc step.

End Calls.

(** ** Values without arrays *)

Module Trees.



End Trees.

(** ** Facts about property lists and the loop of [setState] *)

Section PropertyLists.

Implicit Types (ps : list (string * value)) (key j : string) (x : value).








End PropertyLists.


Section SetStateLoop.

Import DataStore.

Variable recurse : value -> value -> value * list event * option error.

Implicit Types (ps : list (string * value)) (key j : string)
  (stem item cur : value) (calls : list event).






(** The loop makes no call of its own: if the recursive calls on the
    values of [ps] make none, the calls are those it started with. *)
Lemma for_key_in_calls ps stem calls :
  Forall (fun kv => forall cur, calls_of (recurse kv.2 cur) = []) ps ->
  calls_of (for_key_in recurse ps stem calls) = calls.
Proof.
  revert stem calls.
  induction ps as [|[key item] rest IH]; intros stem calls Hall; simpl; auto.
  apply Forall_cons in Hall as [Hitem Hall]; simpl in Hitem.
  assert (calls_of (for_key recurse stem calls key item) = calls) as Hk.
  { unfold for_key, calls_of.
    destruct (is_nullish item); [now destruct (delete stem key)|].
    destruct (is_object_type item); [|now destruct (put stem key item)].
    destruct (get stem key) as [cur|e]; [|reflexivity].
    destruct (is_object_type cur); [|now destruct (put stem key item)].
    specialize (Hitem cur). unfold calls_of in Hitem.
    destruct (recurse item cur) as [[cur' inner] exn]; simpl in *.
    subst inner. apply app_nil_r. }
  destruct (for_key recurse stem calls key item) as [[stem' calls'] [e|]];
    unfold calls_of in *; simpl in *; [exact Hk|].
  rewrite IH by assumption. exact Hk.
Qed.

End SetStateLoop.

(** ** Facts about [setState] *)

Section SetState.

Import DataStore.

Implicit Types (this : store) (newState stem item cur : value)
  (ps : list (string * value)) (path : list string) (key j : string).

(** Induction on a value with the hypothesis for every property value. *)
Lemma value_ind_props (P : value -> Prop) :
  (forall v, (forall c ps, v <> VObj c ps) -> P v) ->
  (forall c ps, Forall (fun kv => P kv.2) ps -> P (VObj c ps)) ->
  forall v, P v.
Proof.
  intros Hleaf Hobj. fix IH 1.
  intros [| | b | n | s | f | c ps]; try (apply Hleaf; discriminate).
  apply Hobj.
  induction ps as [|[k x] rest IHps]; constructor; [apply IH | exact IHps].
Qed.

Lemma setState_mapping this ps stem (b : bool) :
  setState this (VObj ClsObject ps) stem b =
  let r := for_key_in (fun item cur => setState this item cur false) ps stem [] in
  match exn_of r with
  | Some e => (stem_of r, calls_of r, Some e)
  | None =>
      if b then (stem_of r, calls_of r ++ notify (subscribers this) (stem_of r), None)
      else (stem_of r, calls_of r, None)
  end.
Proof.
  simpl.
  destruct (for_key_in _ ps stem []) as [[stem' calls] [e|]]; reflexivity.
Qed.

Lemma setState_not_mapping this newState stem (b : bool) :
  is_mapping newState = false ->
  setState this newState stem b = (stem, [], Some must_be_object).
Proof. destruct newState as [| | | | | |[|] ps]; simpl; auto; discriminate. Qed.

#[local] Arguments setState : simpl never.

Lemma setState_loop this ps stem (b : bool) :
  let r := for_key_in (fun item cur => setState this item cur false) ps stem [] in
  stem_of (setState this (VObj ClsObject ps) stem b) = stem_of r /\
  exn_of (setState this (VObj ClsObject ps) stem b) = exn_of r.
Proof.
  rewrite setState_mapping; simpl.
  destruct (exn_of _) eqn:E; [|destruct b]; unfold exn_of, stem_of in *; simpl; auto.
Qed.

Lemma size_property c ps key x : props_get key ps = Some x -> size x < size (VObj c ps).
Proof.
  simpl. induction ps as [|[k v] rest IH]; simpl; [discriminate|].
  destruct (String.eqb key k); [intros [= ->]; lia | intros H; specialize (IH H); lia].
Qed.

Lemma at_path_undefined path : at_path VUndefined path = VUndefined.
Proof. destruct path; reflexivity. Qed.

(** In a tree, what a non-empty path of keys reaches from an object, if it
    is of type object, is another object than the one the path starts
    from: the stem of a recursive call is never the state. *)
Lemma object_below_is_another path :
  forall v, path <> [] -> is_object_type (at_path v path) = true ->
            size (at_path v path) < size v /\ at_path v path <> v.
Proof.
  assert (forall path v, path <> [] -> is_object_type (at_path v path) = true ->
                         size (at_path v path) < size v) as Hsize.
  { clear path. induction path as [|k path IH]; intros v Hne Ho; [congruence|].
    simpl in *.
    destruct v as [| | | | | |c ps]; simpl in *; try discriminate;
      try (rewrite at_path_undefined in Ho; discriminate).
    destruct (props_get k ps) as [x|] eqn:Hx; simpl in *;
      [|rewrite at_path_undefined in Ho; discriminate].
    pose proof (size_property c ps k x Hx) as Hlt. simpl in Hlt.
    destruct path as [|k' path].
    - simpl in *. exact Hlt.
    - specialize (IH x ltac:(discriminate) Ho). lia. }
  intros v Hne Ho. specialize (Hsize path v Hne Ho).
  split; [exact Hsize|]. intros Heq. rewrite Heq in Hsize. lia.
Qed.

(** A call whose stem is not the state calls no subscriber, at any depth. *)
Lemma setState_inner_silent this newState :
  forall stem, calls_of (setState this newState stem false) = [].
Proof.
  induction newState as [v Hv | c ps IH] using value_ind_props; intros stem.
  - rewrite setState_not_mapping; [reflexivity|].
    destruct v as [| | | | | |c ps]; auto. now destruct (Hv c ps).
  - destruct c; [|reflexivity].
    rewrite setState_mapping; simpl.
    pose proof (for_key_in_calls (fun item cur => setState this item cur false)
                  ps stem [] IH) as Hcalls.
    destruct (exn_of _); unfold calls_of in *; simpl; exact Hcalls.
Qed.


Lemma props_get_keys key ps item : props_get key ps = Some item -> key ∈ map fst ps.
Proof.
  induction ps as [|[k x] rest IH]; simpl; [discriminate|].
  destruct (String.eqb key k) eqn:E.
  - apply String.eqb_eq in E; subst k. intros _. apply list_elem_of_here.
  - intros H. apply list_elem_of_further. now apply IH.
Qed.


End SetState.

(** ** Subscriber lists *)

Section Subscribers.

Implicit Types (f g : fn) (l : list fn) (data : value).

Lemma includes_false f l : includes f l = false <-> f ∉ l.
Proof.
  unfold includes. split.
  - intros H Hin. apply list_elem_of_In in Hin.
    assert (existsb (Nat.eqb f) l = true) as Hex; [|congruence].
    apply existsb_exists. exists f. split; [exact Hin | apply Nat.eqb_refl].
  - intros H. destruct (existsb (Nat.eqb f) l) eqn:E; [|reflexivity].
    apply existsb_exists in E as (g & Hin & Heq).
    apply Nat.eqb_eq in Heq; subst g. destruct H. now apply list_elem_of_In.
Qed.

Lemma splice_first_subset f g l : g ∈ splice_first f l -> g ∈ l.
Proof.
  induction l as [|each rest IH]; simpl; [auto|].
  destruct (Nat.eqb f each).
  - apply list_elem_of_further.
  - intros [->|H]%elem_of_cons; [apply list_elem_of_here|].
    apply list_elem_of_further. auto.
Qed.

Lemma splice_first_NoDup f l : NoDup l -> NoDup (splice_first f l).
Proof.
  induction 1 as [|each rest Hfresh Hnd IH]; simpl; [constructor|].
  destruct (Nat.eqb f each); [exact Hnd|].
  constructor; [|exact IH].
  intros Hin. apply Hfresh. eapply splice_first_subset; eauto.
Qed.

Lemma push_NoDup f l : NoDup l -> includes f l = false -> NoDup (l ++ [f]).
Proof.
  intros Hnd Hf. apply includes_false in Hf.
  apply NoDup_app. split; [exact Hnd|]. split.
  - intros g Hg [->|[]%elem_of_nil]%elem_of_cons. contradiction.
  - apply NoDup_singleton.
Qed.

Lemma calls_to_notify_absent f l data : f ∉ l -> calls_to f (notify l data) = 0.
Proof.
  induction l as [|each rest IH]; intros Hf; [reflexivity|].
  apply not_elem_of_cons in Hf as [Hne Hf].
  unfold calls_to, notify in *; simpl.
  destruct (Nat.eqb each f) eqn:E; [|auto].
  apply Nat.eqb_eq in E. congruence.
Qed.

(** Notifying a list without repetition calls each of its members once. *)
Lemma calls_to_notify_once f l data :
  NoDup l -> f ∈ l -> calls_to f (notify l data) = 1.
Proof.
  induction 1 as [|each rest Hfresh Hnd IH]; intros Hin.
  - now apply elem_of_nil in Hin.
  - unfold calls_to, notify in *; simpl.
    destruct (Nat.eqb each f) eqn:E.
    + apply Nat.eqb_eq in E; subst each. simpl. f_equal.
      now apply calls_to_notify_absent.
    + apply Nat.eqb_neq in E.
      apply elem_of_cons in Hin as [->|Hin]; [congruence | auto].
Qed.

Lemma store_subscribers_NoDup (this : DataStore.store) :
  DataStore.reachable this -> NoDup (DataStore.subscribers this).
Proof.
  induction 1 as [initState | this newState _ IH | this newState _ IH
                 | this callback _ IH | this callback _ IH]; simpl.
  - constructor.
  - unfold DataStore.setState_default.
    now destruct (DataStore.setState _ _ _ _) as [[stem' calls] exn].
  - unfold DataStore.replaceState.
    now destruct (negb (is_object_type newState) || is_null newState).
  - unfold DataStore.onStateChanged.
    destruct callback; simpl; auto.
    destruct (includes f (DataStore.subscribers this)) eqn:E; simpl; auto.
    now apply push_NoDup.
  - destruct callback; simpl; auto. now apply splice_first_NoDup.
Qed.

End Subscribers.

(** ** The data store *)

Section DataStoreProperties.

Import DataStore.

Implicit Types (this : store) (newState p : value) (path : list string)
  (j : string).

#[local] Arguments setState : simpl never.

Lemma setState_default_stem this newState :
  state (after (setState_default this newState)) =
    stem_of (setState this newState (state this) true) /\
  trace (setState_default this newState) =
    calls_of (setState this newState (state this) true) /\
  thrown (setState_default this newState) =
    exn_of (setState this newState (state this) true) /\
  subscribers (after (setState_default this newState)) = subscribers this.
Proof.
  unfold setState_default.
  now destruct (setState this newState (state this) true) as [[stem' calls] exn].
Qed.

(** A [setState] that returns leaves the merged stem as the state and
    has called the subscribers, in order, with it. *)
Lemma setState_default_returns this newState :
  thrown (setState_default this newState) = None ->
  state (after (setState_default this newState)) =
    stem_of (setState this newState (state this) false) /\
  trace (setState_default this newState) =
    notify (subscribers this) (state (after (setState_default this newState))).
Proof.
  intros Hret.
  destruct (setState_default_stem this newState) as (Hs & Ht & He & _).
  rewrite Hs, Ht. rewrite He in Hret. clear Hs Ht He.
  destruct newState as [| | | | | |[|] ps];
    try (rewrite setState_not_mapping in Hret by reflexivity; discriminate).
  pose proof (setState_inner_silent this (VObj ClsObject ps) (state this)) as Hin.
  rewrite !setState_mapping in *. simpl in *.
  destruct (exn_of (for_key_in _ ps (state this) [])) eqn:E; [discriminate|].
  unfold stem_of, calls_of in *; simpl in *. rewrite Hin. simpl.
  split; reflexivity.
Qed.


(** The example of the specification: from [{a: {x: 1, y: 2}}],
    [setState({a: {x: 10}})] yields [{a: {x: 10, y: 2}}] and notifies. *)
Example setState_nested_example (subs : list fn) :
  setState_default
    {| state := obj [("a", obj [("x", VNum 1); ("y", VNum 2)])];
       subscribers := subs |}
    (obj [("a", obj [("x", VNum 10)])]) =
  {| after := {| state := obj [("a", obj [("x", VNum 10); ("y", VNum 2)])];
                 subscribers := subs |};
     returned := VUndefined;
     trace := notify subs (obj [("a", obj [("x", VNum 10); ("y", VNum 2)])]);
     thrown := None |}.
Proof. reflexivity. Qed.




(** C6.  The two mutators validate differently.  [setState] with an
    argument that is not a plain mapping (a number, [null], an array)
    throws the [TypeError] of the method, changes nothing and calls no
    subscriber.  [replaceState] with an argument that is [null] or not of
    type object returns without an error, changes nothing and calls no
    subscriber. *)
Theorem validation_is_asymmetric this p :
  (is_mapping p = false ->
   let r := setState_default this p in
   thrown r = Some (TypeError "DataStore.setState: newState must be an object") /\
   after r = this /\ trace r = []) /\
  (is_object_type p = false \/ p = VNull ->
   let r := replaceState this p in
   thrown r = None /\ after r = this /\ trace r = []).
Proof.
  split.
  - intros Hp r. subst r. unfold setState_default.
    rewrite setState_not_mapping by assumption. destruct this; auto.
  - intros Hp r. subst r. unfold replaceState.
    destruct Hp as [->| ->]; auto.
Qed.

Lemma validation_is_asymmetric_witness :
  thrown (setState_default watched_store (arr [("0", VNum 1); ("1", VNum 2)])) =
    Some (TypeError "DataStore.setState: newState must be an object") /\
  after (setState_default watched_store (arr [("0", VNum 1); ("1", VNum 2)])) =
    watched_store /\
  thrown (replaceState watched_store (VNum 42)) = None /\
  after (replaceState watched_store (VNum 42)) = watched_store.
Proof.
  destruct (proj1 (validation_is_asymmetric watched_store
                     (arr [("0", VNum 1); ("1", VNum 2)])) eq_refl) as (H1 & H2 & _).
  destruct (proj2 (validation_is_asymmetric watched_store (VNum 42))
              (or_introl eq_refl)) as (H3 & H4 & _).
  repeat split; assumption.
Defined.

(** The inputs the specification lists for the validation. *)
Example validation_examples :
  thrown (setState_default watched_store (VNum 42)) = Some must_be_object /\
  thrown (setState_default watched_store VNull) = Some must_be_object /\
  thrown (setState_default watched_store
            (arr [("0", VNum 1); ("1", VNum 2); ("2", VNum 3)])) =
    Some must_be_object /\
  replaceState watched_store (VNum 42) =
    {| after := watched_store; returned := VUndefined; trace := []; thrown := None |}.
Proof. repeat split. Qed.

Lemma props_set_same key (x : value) ps :
  props_get key ps = Some x -> props_set key x ps = ps.
Proof.
  induction ps as [|[k v] rest IH]; simpl; [discriminate|].
  destruct (String.eqb key k) eqn:E.
  - intros [= ->]. reflexivity.
  - intros H. now rewrite IH.
Qed.

(** C2.  The code against the claim.  Where the state holds a value of
    type object at [k] (a mapping, an array, or [null]), a patch whose
    value at [k] is an array is not assigned: [setState] hands the array
    to the recursive call, whose guard rejects it, so the call throws
    the [TypeError] of the method and the state is as it was, no
    subscriber being called. *)
Theorem setState_array_over_object_throws this k (elements sp : list (string * value))
    c cur :
  state this = VObj c sp ->
  props_get k sp = Some cur ->
  is_object_type cur = true ->
  let r := setState_default this (obj [(k, arr elements)]) in
  thrown r = Some (TypeError "DataStore.setState: newState must be an object") /\
  state (after r) = state this /\
  trace r = [].
Proof.
  intros Hstate Hcur Ho r. subst r.
  destruct (setState_default_stem this (obj [(k, arr elements)])) as (Hs & Ht & He & _).
  rewrite Hs, Ht, He, Hstate. unfold obj. rewrite setState_mapping.
  simpl. unfold for_key. simpl. rewrite Hcur. simpl. rewrite Ho.
  unfold exn_of, stem_of, calls_of. simpl.
  rewrite (props_set_same k cur sp Hcur). auto.
Qed.

Lemma setState_array_over_object_throws_witness :
  thrown (setState_default albums_store albums_patch) =
    Some (TypeError "DataStore.setState: newState must be an object") /\
  state (after (setState_default albums_store albums_patch)) = state albums_store /\
  trace (setState_default albums_store albums_patch) = [].
Proof.
  exact (setState_array_over_object_throws albums_store "bestAlbums"
           [("0", VStr "Lonerism")] _ ClsObject _ eq_refl eq_refl eq_refl).
Defined.

(** The distributed build, whose tests are [isObject], assigns the array. *)
Example dist_setState_replaces_array :
  DataStore.state (DataStore.after (Dist.setState_default albums_store albums_patch)) =
    obj [("bestAlbums", arr [("0", VStr "Lonerism")])] /\
  DataStore.thrown (Dist.setState_default albums_store albums_patch) = None.
Proof. split; reflexivity. Qed.

(** C10.  The recursion of [setState] is on the type [object], which
    [null] and arrays have.  A non-empty mapping merged into [null]
    throws the engine's [TypeError], whatever its first key holds.  So
    for a state that holds [null] at [k], from the constructor or from
    [replaceState], [setState] with a mapping at [k] throws instead of
    overwriting; the keys before [k] are already applied, and no
    subscriber is called. *)
Theorem setState_recurses_into_null :
  is_object_type VNull = true /\
  (forall elements, is_object_type (arr elements) = true) /\
  (forall this j x more (b : bool),
      setState this (obj ((j, x) :: more)) VNull b = (VNull, [], Some EngineTypeError)) /\
  is_TypeError EngineTypeError = true /\
  (let r := setState_default null_store null_patch in
   thrown r = Some EngineTypeError /\
   state (after r) = obj [("a", VNum 2); ("k", VNull)] /\
   trace r = []) /\
  (let r := setState_default null_store_replaced null_patch in
   thrown r = Some EngineTypeError /\
   state (after r) = obj [("a", VNum 2); ("k", VNull)] /\
   trace r = []).
Proof.
  split; [reflexivity|]. split; [reflexivity|]. split.
  - intros this j x more b. unfold obj. rewrite setState_mapping.
    assert (for_key_in (fun item cur => setState this item cur false)
              ((j, x) :: more) VNull [] = (VNull, [], Some EngineTypeError)) as ->.
    { simpl. unfold for_key.
      destruct (is_nullish x); [reflexivity|].
      destruct (is_object_type x); reflexivity. }
    reflexivity.
  - repeat split.
Qed.

End DataStoreProperties.

(** ** The action registry *)

Section ActionsProperties.

Import Actions.

Implicit Types (this : registry) (k a : string) (act : action) (f h : fn)
  (args data : value).

Lemma occurrences_absent f (l : list fn) : f ∉ l -> occurrences f l = 0.
Proof.
  induction l as [|each rest IH]; intros Hf; [reflexivity|].
  apply not_elem_of_cons in Hf as [Hne Hf].
  unfold occurrences in *; simpl.
  destruct (Nat.eqb f each) eqn:E; [|auto].
  apply Nat.eqb_eq in E. congruence.
Qed.

Lemma occurrences_once f (l : list fn) : NoDup l -> f ∈ l -> occurrences f l = 1.
Proof.
  induction 1 as [|each rest Hfresh Hnd IH]; intros Hin.
  - now apply elem_of_nil in Hin.
  - unfold occurrences in *; simpl.
    destruct (Nat.eqb f each) eqn:E.
    + apply Nat.eqb_eq in E; subst each. simpl. f_equal.
      now apply occurrences_absent.
    + apply Nat.eqb_neq in E.
      apply elem_of_cons in Hin as [->|Hin]; [congruence | auto].
Qed.

(** A property of every record is kept when a record that has it is
    installed. *)
Lemma insert_all (P : action -> Prop) this k act :
  P act ->
  (forall k' act', this !! k' = Some act' -> P act') ->
  forall k' act', <[k := act]> this !! k' = Some act' -> P act'.
Proof.
  intros Hact Hall k' act'. rewrite lookup_insert.
  destruct (decide (k = k')); [intros [= <-]; exact Hact | apply Hall].
Qed.

Lemma constructor_all (P : action -> Prop) actions :
  P {| subscribers := []; func := VNull |} ->
  forall k act, constructor actions !! k = Some act -> P act.
Proof.
  intros Hfresh. unfold constructor.
  assert (forall init : registry,
             (forall k act, init !! k = Some act -> P act) ->
             forall k act,
               fold_left (fun this kv =>
                            <[kv.1 := {| subscribers := []; func := VNull |}]> this)
                         actions init !! k = Some act -> P act) as Hfold.
  { induction actions as [|[key v] rest IH]; intros init Hinit; simpl; [exact Hinit|].
    apply IH. now apply insert_all. }
  apply Hfold. intros k act. rewrite lookup_empty. discriminate.
Qed.

Lemma registry_subscribers_NoDup this :
  reachable this -> forall k act, this !! k = Some act -> NoDup (subscribers act).
Proof.
  induction 1 as [actions | this key func _ IH | this key callback _ IH
                 | this key callback _ IH].
  - apply constructor_all. constructor.
  - unfold register.
    destruct key; try exact IH. destruct func; try exact IH.
    destruct (this !! s) as [act|]; [|exact IH].
    destruct (negb (is_null (Actions.func act))); [exact IH|].
    apply insert_all; [constructor | exact IH].
  - unfold on.
    destruct key; try exact IH. destruct callback; try exact IH.
    destruct (this !! s) as [act|] eqn:E; [|exact IH].
    destruct (includes f (subscribers act)) eqn:Hin; [exact IH|].
    apply insert_all; [|exact IH]. simpl. apply push_NoDup; eauto.
  - unfold unsubscribe.
    destruct (this !! key) as [act|] eqn:E; [|exact IH].
    destruct callback; try exact IH.
    apply insert_all; [|exact IH]. simpl. apply splice_first_NoDup; eauto.
Qed.

(** C1, as the code has it.  A [register(key, func)] that returns has
    installed a new record for the action: its handler is [func] and its
    subscriber list is empty, so the callbacks subscribed to the action
    before the call are no longer subscribed.  The records of the other
    actions are unchanged. *)
Theorem register_resets_subscribers this key handler :
  thrown (register this key handler) = None ->
  exists k,
    key = VStr k /\
    after (register this key handler) !! k =
      Some {| subscribers := []; func := handler |} /\
    (forall k', k' <> k -> after (register this key handler) !! k' = this !! k').
Proof.
  unfold register.
  destruct key as [| | | |k| |]; try discriminate.
  destruct handler as [| | | | |f|]; try discriminate.
  destruct (this !! k) as [act|]; [|discriminate].
  destruct (negb (is_null (func act))); [discriminate|]. simpl.
  intros _. exists k. split; [reflexivity|]. split.
  - apply lookup_insert_eq.
  - intros k' Hne. now apply lookup_insert_ne.
Qed.

Lemma register_resets_subscribers_witness :
  after (register subscribed (VStr "a") (VFun 2)) !! "a" =
    Some {| subscribers := []; func := VFun 2 |}.
Proof.
  destruct (register_resets_subscribers subscribed (VStr "a") (VFun 2) eq_refl)
    as (k & [= <-] & Hk & _).
  exact Hk.
Defined.

(** C1 as stated fails: the callback [1] is subscribed to ["a"];
    [register("a", 2)] succeeds; the subscriber list of ["a"] is then
    empty, not [[1]]. *)
Lemma register_preserves_subscribers_counterexample :
  subscribers_of subscribed "a" = [1] /\
  thrown (register subscribed (VStr "a") (VFun 2)) = None /\
  subscribers_of (after (register subscribed (VStr "a") (VFun 2))) "a" = [] /\
  subscribers_of (after (register subscribed (VStr "a") (VFun 2))) "a" <>
    subscribers_of subscribed "a".
Proof. repeat split. vm_compute. discriminate. Qed.

(** [registerAsync] of the distributed build does the same. *)
Example dist_registerAsync_resets_subscribers :
  thrown (Dist.registerAsync subscribed (VStr "a") (VFun 2)) = None /\
  subscribers_of (after (Dist.registerAsync subscribed (VStr "a") (VFun 2))) "a" = [].
Proof. split; reflexivity. Qed.



(** The distributed build forwards the argument of [call] instead. *)
Example dist_call_forwards_data :
  trace (Dist.call subscribed "a" (VNum 5)) = [Notify 1 (VNum 5)].
Proof. reflexivity. Qed.

(** C7.  With a handler registered, [call] makes one foreign call, to
    the handler, with the completion callback of the action and [args];
    it calls no subscriber.  The completion callback, when it is called
    with [d], calls every subscriber of the action, in the order of the
    list, each with [d]. *)
Theorem handler_gates_publication this a h act args :
  this !! a = Some act ->
  func act = VFun h ->
  trace (call this a args) = [Handle h a args] /\
  thrown (call this a args) = None /\
  (forall each data, Notify each data ∉ trace (call this a args)) /\
  (forall later act' d,
      later !! a = Some act' ->
      trace (buildDoneFunction a later d) =
        map (fun each => Notify each d) (subscribers act') /\
      thrown (buildDoneFunction a later d) = None).
Proof.
  intros Ha Hh. unfold call. rewrite Ha, Hh. simpl.
  split; [reflexivity|]. split; [reflexivity|]. split.
  - intros each data [[=]|[]%elem_of_nil]%elem_of_cons.
  - intros later act' d Hl. unfold buildDoneFunction, publish. now rewrite Hl.
Qed.

Lemma handler_gates_publication_witness :
  trace (call handled "a" (VNum 5)) = [Handle 9 "a" (VNum 5)] /\
  trace (buildDoneFunction "a" handled (VNum 42)) =
    [Notify 1 (VNum 42); Notify 2 (VNum 42)].
Proof.
  destruct (handler_gates_publication handled "a" 9
              {| subscribers := [1; 2]; func := VFun 9 |} (VNum 5) eq_refl eq_refl)
    as (H1 & _ & _ & H2).
  split; [exact H1|].
  exact (proj1 (H2 handled {| subscribers := [1; 2]; func := VFun 9 |} (VNum 42)
                   eq_refl)).
Defined.



(** The listed failures of [register], on a registry declaring ["a"]. *)
Example register_failures :
  thrown (register one_action (VNum 3) (VFun 1)) =
    Some (TypeError "Actions.register: key argument must be a string") /\
  thrown (register one_action (VStr "a") (VStr "f")) =
    Some (TypeError "Actions.register: func argument must be a function") /\
  thrown (register one_action (VStr "NonAction") (VFun 1)) = Some not_declared.
Proof. repeat split. Qed.

(** C9.  Subscribing is idempotent, for the store and for an action.
    After [onStateChanged(f)] twice on a store, or [on(k, f)] twice on a
    declared action, [f] has one entry in the subscriber list and is
    called once by a mutation that returns, or by a publication.  The
    second subscription changes nothing and returns [undefined]; the
    first, when [f] was not subscribed yet, appends [f] and returns it. *)
Theorem subscription_is_idempotent f (store : DataStore.store) this k act :
  DataStore.reachable store ->
  reachable this ->
  this !! k = Some act ->
  (let r1 := DataStore.onStateChanged store (VFun f) in
   let r2 := DataStore.onStateChanged (DataStore.after r1) (VFun f) in
   occurrences f (DataStore.subscribers (DataStore.after r2)) = 1 /\
   DataStore.after r2 = DataStore.after r1 /\
   DataStore.returned r2 = VUndefined /\
   (includes f (DataStore.subscribers store) = false ->
    DataStore.returned r1 = VFun f /\
    DataStore.subscribers (DataStore.after r1) = DataStore.subscribers store ++ [f]) /\
   (forall newState,
       DataStore.thrown (DataStore.setState_default (DataStore.after r2) newState)
         = None ->
       calls_to f (DataStore.trace
                     (DataStore.setState_default (DataStore.after r2) newState)) = 1)) /\
  (let r1 := on this (VStr k) (VFun f) in
   let r2 := on (after r1) (VStr k) (VFun f) in
   occurrences f (subscribers_of (after r2) k) = 1 /\
   after r2 = after r1 /\
   returned r2 = VUndefined /\
   (includes f (subscribers act) = false ->
    returned r1 = VFun f /\
    subscribers_of (after r1) k = subscribers act ++ [f]) /\
   (forall data, calls_to f (trace (publish (after r2) k data)) = 1)).
Proof.
  intros Hstore Hthis Hk. split.
  - intros r1 r2.
    assert (DataStore.reachable (DataStore.after r1)) as Hreach1
      by now apply DataStore.reach_onStateChanged.
    assert (f ∈ DataStore.subscribers (DataStore.after r1)) as Hin.
    { subst r1. unfold DataStore.onStateChanged.
      destruct (includes f (DataStore.subscribers store)) eqn:E; simpl.
      - destruct (decide (f ∈ DataStore.subscribers store)) as [H|H]; [exact H|].
        apply includes_false in H. congruence.
      - apply elem_of_app. right. apply list_elem_of_here. }
    assert (r2 = {| DataStore.after := DataStore.after r1;
                    DataStore.returned := VUndefined;
                    DataStore.trace := []; DataStore.thrown := None |}) as Hr2.
    { subst r2. unfold DataStore.onStateChanged at 1.
      destruct (includes f (DataStore.subscribers (DataStore.after r1))) eqn:E;
        [reflexivity|].
      apply includes_false in E. contradiction. }
    rewrite Hr2. simpl.
    pose proof (store_subscribers_NoDup _ Hreach1) as Hnd.
    split; [now apply occurrences_once|].
    split; [reflexivity|]. split; [reflexivity|]. split.
    + intros Hnew. subst r1. unfold DataStore.onStateChanged.
      rewrite Hnew. split; reflexivity.
    + intros newState Hret.
      destruct (setState_default_returns (DataStore.after r1) newState Hret)
        as [_ Ht].
      rewrite Ht. now apply calls_to_notify_once.
  - intros r1 r2.
    assert (reachable (after r1)) as Hreach1 by now apply reach_on.
    assert (exists act1, after r1 !! k = Some act1 /\ f ∈ subscribers act1)
      as (act1 & Hk1 & Hin).
    { subst r1. unfold on. rewrite Hk.
      destruct (includes f (subscribers act)) eqn:E; simpl.
      - exists act. split; [exact Hk|].
        destruct (decide (f ∈ subscribers act)) as [H|H]; [exact H|].
        apply includes_false in H. congruence.
      - eexists. split; [apply lookup_insert_eq|]. simpl.
        apply elem_of_app. right. apply list_elem_of_here. }
    assert (r2 = returns (after r1) VUndefined []) as Hr2.
    { subst r2. unfold on at 1. rewrite Hk1.
      destruct (includes f (subscribers act1)) eqn:E; [reflexivity|].
      apply includes_false in E. contradiction. }
    rewrite Hr2. simpl.
    pose proof (registry_subscribers_NoDup _ Hreach1 k act1 Hk1) as Hnd.
    unfold subscribers_of, publish. rewrite Hk1. simpl.
    split; [now apply occurrences_once|].
    split; [reflexivity|]. split; [reflexivity|]. split.
    + intros Hnew. subst r1. unfold on in *. rewrite Hk, Hnew in *. simpl in *.
      rewrite lookup_insert_eq in Hk1. injection Hk1 as <-. split; reflexivity.
    + intros data. now apply calls_to_notify_once.
Qed.

Lemma subscription_is_idempotent_witness :
  occurrences 3 (DataStore.subscribers
                   (DataStore.after
                      (DataStore.onStateChanged
                         (DataStore.after
                            (DataStore.onStateChanged DataStore.watched_store (VFun 3)))
                         (VFun 3)))) = 1 /\
  occurrences 3 (subscribers_of
                   (after (on (after (on subscribed (VStr "a") (VFun 3)))
                              (VStr "a") (VFun 3)))
                   "a") = 1.
Proof.
  assert (DataStore.reachable DataStore.watched_store) as Hstore
    by (do 2 apply DataStore.reach_onStateChanged; constructor).
  assert (reachable subscribed) as Hthis by (apply reach_on; constructor).
  destruct (subscription_is_idempotent 3 DataStore.watched_store subscribed "a"
              {| subscribers := [1]; func := VNull |} Hstore Hthis eq_refl)
    as ((H1 & _) & (H2 & _)).
  split; assumption.
Defined.

End ActionsProperties.

(** ** Unsubscribing *)

Section Unsubscribe.

Implicit Types (f g : fn) (l : list fn).

Lemma splice_first_absent f l : f ∉ l -> splice_first f l = l.
Proof.
  induction l as [|each rest IH]; intros Hf; [reflexivity|].
  apply not_elem_of_cons in Hf as [Hne Hf]. simpl.
  destruct (Nat.eqb f each) eqn:E.
  - apply Nat.eqb_eq in E. congruence.
  - now rewrite IH.
Qed.

Lemma splice_first_app f l1 l2 :
  f ∉ l1 -> splice_first f (l1 ++ f :: l2) = l1 ++ l2.
Proof.
  induction l1 as [|each rest IH]; intros Hf; simpl.
  - now rewrite Nat.eqb_refl.
  - apply not_elem_of_cons in Hf as [Hne Hf].
    destruct (Nat.eqb f each) eqn:E.
    + apply Nat.eqb_eq in E. congruence.
    + now rewrite IH.
Qed.

Lemma splice_first_push f l : f ∉ l -> splice_first f (l ++ [f]) = l.
Proof. intros Hf. rewrite splice_first_app by assumption. apply app_nil_r. Qed.

(** A list without repetition that holds [f] splits around its entry. *)
Lemma NoDup_split f l :
  NoDup l -> f ∈ l -> exists l1 l2, l = l1 ++ f :: l2 /\ (f ∉ l1) /\ (f ∉ l2).
Proof.
  intros Hnd Hin. apply list_elem_of_split in Hin as (l1 & l2 & ->).
  exists l1, l2. split; [reflexivity|].
  apply NoDup_app in Hnd as (_ & Hdisj & Hnd2).
  apply NoDup_cons in Hnd2 as [Hf2 _]. split; [|exact Hf2].
  intros Hf1. apply (Hdisj f Hf1). apply list_elem_of_here.
Qed.

(** [DataStore.unsubscribe] removes the entry of the callback and
    nothing else: the other subscribers keep their order, the state is
    untouched, and a later [setState] that returns calls the removed
    callback no more and every other subscriber once. *)
Theorem store_unsubscribe_removes_exactly (this : DataStore.store) f :
  DataStore.reachable this ->
  f ∈ DataStore.subscribers this ->
  let r := DataStore.unsubscribe this (VFun f) in
  DataStore.state (DataStore.after r) = DataStore.state this /\
  (exists l1 l2,
      DataStore.subscribers this = l1 ++ f :: l2 /\
      DataStore.subscribers (DataStore.after r) = l1 ++ l2) /\
  (f ∉ DataStore.subscribers (DataStore.after r)) /\
  (forall newState,
      DataStore.thrown (DataStore.setState_default (DataStore.after r) newState) = None ->
      calls_to f (DataStore.trace
                    (DataStore.setState_default (DataStore.after r) newState)) = 0 /\
      (forall g, g ∈ DataStore.subscribers this -> g <> f ->
                 calls_to g (DataStore.trace
                               (DataStore.setState_default (DataStore.after r) newState))
                 = 1)).
Proof.
  intros Hreach Hin r.
  pose proof (store_subscribers_NoDup this Hreach) as Hnd.
  destruct (NoDup_split f _ Hnd Hin) as (l1 & l2 & Hl & Hf1 & Hf2).
  assert (DataStore.subscribers (DataStore.after r) = l1 ++ l2) as Hafter.
  { subst r. simpl. rewrite Hl. now apply splice_first_app. }
  assert (f ∉ l1 ++ l2) as Hout.
  { intros [H|H]%elem_of_app; contradiction. }
  split; [reflexivity|]. split; [now exists l1, l2|].
  split; [now rewrite Hafter|].
  intros newState Hret.
  destruct (setState_default_returns _ newState Hret) as [_ Ht].
  rewrite Ht, Hafter. split; [now apply calls_to_notify_absent|].
  intros g Hg Hne. apply calls_to_notify_once.
  - rewrite Hl in Hnd. apply NoDup_app in Hnd as (Hnd1 & Hdisj & Hnd2).
    apply NoDup_cons in Hnd2 as [_ Hnd2]. apply NoDup_app.
    split; [exact Hnd1|]. split; [|exact Hnd2].
    intros x Hx1 Hx2. apply (Hdisj x Hx1). now apply list_elem_of_further.
  - rewrite Hl in Hg. apply elem_of_app in Hg as [Hg|Hg].
    + apply elem_of_app. now left.
    + apply elem_of_cons in Hg as [->|Hg]; [congruence|].
      apply elem_of_app. now right.
Qed.

Lemma store_unsubscribe_removes_exactly_witness :
  DataStore.subscribers
    (DataStore.after (DataStore.unsubscribe DataStore.watched_store (VFun 1))) = [2] /\
  calls_to 1 (DataStore.trace
                (DataStore.setState_default
                   (DataStore.after (DataStore.unsubscribe DataStore.watched_store (VFun 1)))
                   (obj [("b", VNum 2)]))) = 0.
Proof.
  assert (DataStore.reachable DataStore.watched_store) as Hreach
    by (do 2 apply DataStore.reach_onStateChanged; constructor).
  destruct (store_unsubscribe_removes_exactly DataStore.watched_store 1 Hreach
              ltac:(apply list_elem_of_here))
    as (_ & _ & _ & Hcalls).
  split; [reflexivity|]. exact (proj1 (Hcalls (obj [("b", VNum 2)]) eq_refl)).
Defined.

(** [unsubscribe] undoes [onStateChanged]: subscribing a function that
    was not subscribed and unsubscribing it gives the store back.  And
    unsubscribing what is not subscribed, a function or any other value,
    changes nothing. *)
Theorem store_subscribe_unsubscribe (this : DataStore.store) f :
  includes f (DataStore.subscribers this) = false ->
  DataStore.after
    (DataStore.unsubscribe
       (DataStore.after (DataStore.onStateChanged this (VFun f))) (VFun f)) = this /\
  DataStore.after (DataStore.unsubscribe this (VFun f)) = this /\
  (forall v, typeof v <> TFunction -> DataStore.after (DataStore.unsubscribe this v) = this).
Proof.
  intros Hnew. pose proof Hnew as Hf. apply includes_false in Hf.
  unfold DataStore.unsubscribe, DataStore.onStateChanged. rewrite Hnew. simpl.
  rewrite splice_first_push, splice_first_absent by assumption.
  destruct this as [state subs]; simpl.
  split; [reflexivity|]. split; [reflexivity|].
  intros v Hv. destruct v; try reflexivity. now destruct Hv.
Qed.

Lemma store_subscribe_unsubscribe_witness :
  DataStore.after
    (DataStore.unsubscribe
       (DataStore.after (DataStore.onStateChanged DataStore.watched_store (VFun 3)))
       (VFun 3)) = DataStore.watched_store.
Proof.
  exact (proj1 (store_subscribe_unsubscribe DataStore.watched_store 3 eq_refl)).
Defined.

Lemma action_eta (act : Actions.action) :
  {| Actions.subscribers := Actions.subscribers act; Actions.func := Actions.func act |}
  = act.
Proof. now destruct act. Qed.

(** [Actions.unsubscribe] removes the entry of the callback from the
    subscriber list of that action and nothing else: the handler of the
    action is kept, the other actions are untouched, and a later
    publication calls the removed callback no more and every other
    subscriber of the action once. *)
Theorem action_unsubscribe_removes_exactly (this : Actions.registry) k act f :
  Actions.reachable this ->
  this !! k = Some act ->
  f ∈ Actions.subscribers act ->
  let r := Actions.unsubscribe this k (VFun f) in
  (exists l1 l2,
      Actions.subscribers act = l1 ++ f :: l2 /\
      Actions.after r !! k =
        Some {| Actions.subscribers := l1 ++ l2; Actions.func := Actions.func act |}) /\
  (forall k', k' <> k -> Actions.after r !! k' = this !! k') /\
  (forall data,
      calls_to f (Actions.trace (Actions.publish (Actions.after r) k data)) = 0 /\
      (forall g, g ∈ Actions.subscribers act -> g <> f ->
                 calls_to g (Actions.trace (Actions.publish (Actions.after r) k data))
                 = 1)).
Proof.
  intros Hreach Hk Hin r.
  pose proof (registry_subscribers_NoDup this Hreach k act Hk) as Hnd.
  destruct (NoDup_split f _ Hnd Hin) as (l1 & l2 & Hl & Hf1 & Hf2).
  assert (Actions.after r !! k =
            Some {| Actions.subscribers := l1 ++ l2; Actions.func := Actions.func act |})
    as Hafter.
  { subst r. unfold Actions.unsubscribe. rewrite Hk. simpl.
    rewrite lookup_insert_eq, Hl. now rewrite splice_first_app. }
  split; [now exists l1, l2|]. split.
  - intros k' Hne. subst r. unfold Actions.unsubscribe. rewrite Hk. simpl.
    now apply lookup_insert_ne.
  - intros data. unfold Actions.publish. rewrite Hafter. simpl. split.
    + apply calls_to_notify_absent. intros [H|H]%elem_of_app; contradiction.
    + intros g Hg Hne. apply calls_to_notify_once.
      * rewrite Hl in Hnd. apply NoDup_app in Hnd as (Hnd1 & Hdisj & Hnd2).
        apply NoDup_cons in Hnd2 as [_ Hnd2]. apply NoDup_app.
        split; [exact Hnd1|]. split; [|exact Hnd2].
        intros x Hx1 Hx2. apply (Hdisj x Hx1). now apply list_elem_of_further.
      * rewrite Hl in Hg. apply elem_of_app in Hg as [Hg|Hg].
        -- apply elem_of_app. now left.
        -- apply elem_of_cons in Hg as [->|Hg]; [congruence|].
           apply elem_of_app. now right.
Qed.

Lemma action_unsubscribe_removes_exactly_witness :
  Actions.trace
    (Actions.publish (Actions.after (Actions.unsubscribe Actions.handled "a" (VFun 1)))
                     "a" (VNum 7)) = [Notify 2 (VNum 7)] /\
  calls_to 1 (Actions.trace
                (Actions.publish
                   (Actions.after (Actions.unsubscribe Actions.handled "a" (VFun 1)))
                   "a" (VNum 7))) = 0.
Proof.
  assert (Actions.reachable Actions.handled) as Hreach
    by (do 2 apply Actions.reach_on; apply Actions.reach_register; constructor).
  destruct (action_unsubscribe_removes_exactly Actions.handled "a"
              {| Actions.subscribers := [1; 2]; Actions.func := VFun 9 |} 1
              Hreach eq_refl ltac:(apply list_elem_of_here))
    as (_ & _ & Hcalls).
  split; [reflexivity|]. exact (proj1 (Hcalls (VNum 7))).
Defined.

(** [unsubscribe] undoes [on]: subscribing to a declared action a
    function that was not subscribed to it, and unsubscribing it, gives
    the registry back.  Unsubscribing what is not subscribed, from a
    declared action or from a name that was not declared, changes
    nothing. *)
Theorem action_subscribe_unsubscribe (this : Actions.registry) k act f :
  this !! k = Some act ->
  includes f (Actions.subscribers act) = false ->
  Actions.after
    (Actions.unsubscribe (Actions.after (Actions.on this (VStr k) (VFun f))) k (VFun f))
    = this /\
  Actions.after (Actions.unsubscribe this k (VFun f)) = this /\
  (forall v, typeof v <> TFunction -> Actions.after (Actions.unsubscribe this k v) = this) /\
  (forall k' v, this !! k' = None -> Actions.after (Actions.unsubscribe this k' v) = this).
Proof.
  intros Hk Hnew. pose proof Hnew as Hf. apply includes_false in Hf.
  split; [|split; [|split]].
  - unfold Actions.on. rewrite Hk, Hnew. simpl.
    unfold Actions.unsubscribe. rewrite lookup_insert_eq. simpl.
    rewrite splice_first_push by assumption.
    rewrite insert_insert_eq, action_eta. now apply insert_id.
  - unfold Actions.unsubscribe. rewrite Hk. simpl.
    rewrite splice_first_absent by assumption.
    rewrite action_eta. now apply insert_id.
  - intros v Hv. unfold Actions.unsubscribe. rewrite Hk.
    destruct v; try reflexivity. now destruct Hv.
  - intros k' v Hk'. unfold Actions.unsubscribe. now rewrite Hk'.
Qed.

Lemma action_subscribe_unsubscribe_witness :
  Actions.after
    (Actions.unsubscribe
       (Actions.after (Actions.on Actions.subscribed (VStr "a") (VFun 3))) "a" (VFun 3))
    = Actions.subscribed.
Proof.
  exact (proj1 (action_subscribe_unsubscribe Actions.subscribed "a"
                  {| Actions.subscribers := [1]; Actions.func := VNull |} 3
                  eq_refl eq_refl)).
Defined.

End Unsubscribe.

(** ** The registry over time *)

Section RegistryInvariants.

Import Actions Calls.

Implicit Types (this later : registry) (k : string) (act : action) (f h : fn).

Lemma constructor_lookup actions k :
  constructor actions !! k =
    if decide (k ∈ map fst actions)
    then Some {| subscribers := []; func := VNull |} else None.
Proof.
  unfold constructor.
  assert (forall init : registry,
             fold_left (fun this kv =>
                          <[kv.1 := {| subscribers := []; func := VNull |}]> this)
                       actions init !! k =
             if decide (k ∈ map fst actions)
             then Some {| subscribers := []; func := VNull |} else init !! k) as Hfold.
  { induction actions as [|[key v] rest IH]; intros init; simpl; [reflexivity|].
    rewrite IH. simpl.
    destruct (decide (k ∈ map fst rest)) as [Hin|Hout].
    - rewrite decide_True; [reflexivity | now apply list_elem_of_further].
    - destruct (decide (key = k)) as [->|Hne].
      + rewrite lookup_insert_eq, decide_True; [reflexivity | apply list_elem_of_here].
      + rewrite lookup_insert_ne by assumption.
        rewrite decide_False; [reflexivity|].
        intros [Heq|Hin]%elem_of_cons; [congruence | contradiction]. }
  rewrite Hfold. reflexivity.
Qed.

(** What one method call does to the registry: nothing, or it replaces
    the record of a declared action by one with the same handler, or with
    a handler where there was none. *)
Lemma step_effect this later :
  step this later ->
  later = this \/
  exists k act act',
    this !! k = Some act /\ later = <[k := act']> this /\
    (func act' = func act \/ func act = VNull).
Proof.
  intros Hstep.
  destruct Hstep as [now key handler | now key args | now key data
                    | now key callback | now key callback].
  - unfold register.
    destruct key as [| | | |k| |]; try (now left).
    destruct handler; try (now left).
    destruct (now !! k) as [act|] eqn:Hk; [|now left].
    destruct (func act) eqn:Hf; try (now left). simpl.
    right. exists k, act. eexists. split; [exact Hk|]. split; [reflexivity|].
    now right.
  - left. unfold call, publish.
    destruct (now !! key) as [act|]; [|reflexivity]. now destruct (func act).
  - left. unfold publish. now destruct (now !! key).
  - unfold on.
    destruct key as [| | | |k| |]; try (now left).
    destruct callback; try (now left).
    destruct (now !! k) as [act|] eqn:Hk; [|now left].
    destruct (includes f (subscribers act)); [now left|]. simpl.
    right. exists k, act. eexists. split; [exact Hk|]. split; [reflexivity|].
    now left.
  - unfold unsubscribe.
    destruct (now !! key) as [act|] eqn:Hk; [|now left].
    destruct callback; try (now left). simpl.
    right. exists key, act. eexists. split; [exact Hk|]. split; [reflexivity|].
    now left.
Qed.

Lemma step_declared this later k :
  step this later -> (is_Some (later !! k) <-> is_Some (this !! k)).
Proof.
  intros [->|(k0 & act & act' & Hk0 & -> & _)]%step_effect; [reflexivity|].
  destruct (decide (k0 = k)) as [->|Hne].
  - rewrite lookup_insert_eq, Hk0. split; eauto.
  - now rewrite lookup_insert_ne.
Qed.

(** The names of a registry are those of the object given to the
    constructor, whatever is called on it afterwards: no method declares
    an action or removes one. *)
Theorem declared_names_are_fixed actions later k :
  evolves (constructor actions) later ->
  (is_Some (later !! k) <-> k ∈ map fst actions).
Proof.
  intros Hev.
  assert (is_Some (later !! k) <-> is_Some (constructor actions !! k)) as ->.
  { induction Hev as [|this mid later Hstep _ IH]; [reflexivity|].
    rewrite IH. now apply step_declared. }
  rewrite constructor_lookup.
  destruct (decide (k ∈ map fst actions)) as [Hin|Hout]; split; eauto.
  - intros [? [=]].
  - contradiction.
Qed.

Lemma declared_names_are_fixed_witness :
  is_Some (handled !! "a") /\ ~ is_Some (handled !! "b").
Proof.
  assert (evolves (constructor [("a", VNull)]) handled) as Hev.
  { unfold handled, one_action.
    eapply rtc_r; [eapply rtc_r; [eapply rtc_once|]|]; constructor. }
  split.
  - apply (declared_names_are_fixed [("a", VNull)] handled "a" Hev).
    apply list_elem_of_here.
  - intros Hb.
    apply (declared_names_are_fixed [("a", VNull)] handled "b" Hev) in Hb.
    simpl in Hb. apply elem_of_cons in Hb as [[=]|[]%elem_of_nil].
Defined.

(** A handler is for ever: once an action has the handler [h], after any
    calls of any methods the action has the handler [h], and [call] calls
    it. *)
Theorem handler_is_permanent this later k act h :
  this !! k = Some act ->
  func act = VFun h ->
  evolves this later ->
  (exists act', later !! k = Some act' /\ func act' = VFun h) /\
  (forall args, trace (call later k args) = [Handle h k args]).
Proof.
  intros Hk Hh Hev.
  assert (exists act', later !! k = Some act' /\ func act' = VFun h)
    as (act' & Hk' & Hh').
  { revert act Hk Hh.
    induction Hev as [|this mid later Hstep _ IH]; intros act Hk Hh; [eauto|].
    apply step_effect in Hstep as [->|(k0 & act0 & act1 & Hk0 & -> & Hfunc)];
      [eauto|].
    destruct (decide (k0 = k)) as [->|Hne].
    - apply (IH act1); [apply lookup_insert_eq|].
      rewrite Hk in Hk0. injection Hk0 as <-.
      destruct Hfunc as [->|Hnull]; congruence.
    - apply (IH act); [now rewrite lookup_insert_ne | exact Hh]. }
  split; [eauto|].
  intros args. unfold call. now rewrite Hk', Hh'.
Qed.

Lemma handler_is_permanent_witness :
  trace (call (after (register (after (unsubscribe handled "a" (VFun 1)))
                               (VStr "a") (VFun 5)))
              "a" (VNum 0)) = [Handle 9 "a" (VNum 0)].
Proof.
  refine (proj2 (handler_is_permanent handled _ "a"
                   {| subscribers := [1; 2]; func := VFun 9 |} 9
                   eq_refl eq_refl _) (VNum 0)).
  eapply rtc_r; [eapply rtc_once|]; constructor.
Defined.

(** A new registry is silent.  Every key of the object given to the
    constructor, whatever its value, names an action without handler and
    without subscribers; no other name is declared; and calling or
    publishing any name calls no function. *)
Theorem new_registry_is_silent actions k (args : value) :
  constructor actions !! k =
    (if decide (k ∈ map fst actions)
     then Some {| subscribers := []; func := VNull |} else None) /\
  trace (call (constructor actions) k args) = [] /\
  trace (publish (constructor actions) k args) = [].
Proof.
  split; [apply constructor_lookup|].
  unfold call, publish. rewrite constructor_lookup.
  destruct (decide (k ∈ map fst actions)); split; reflexivity.
Qed.

(** [on(key, callback)] returns exactly when [key] is a string that
    names a declared action and [callback] is a function; otherwise it
    throws a [TypeError] and the registry is as it was.  When it returns,
    [callback] is subscribed to the action, those that were subscribed
    still are, the handler of the action is the same and the other
    actions are untouched.  It calls no function. *)
Theorem on_subscribes_or_throws this key callback :
  let r := on this key callback in
  trace r = [] /\
  (thrown r = None <->
   exists k f, key = VStr k /\ callback = VFun f /\ is_Some (this !! k)) /\
  (forall e, thrown r = Some e -> is_TypeError e = true /\ after r = this) /\
  (forall k f act,
      key = VStr k -> callback = VFun f -> this !! k = Some act ->
      (exists act',
          after r !! k = Some act' /\
          f ∈ subscribers act' /\
          func act' = func act /\
          (forall g, g ∈ subscribers act -> g ∈ subscribers act')) /\
      (forall k', k' <> k -> after r !! k' = this !! k')).
Proof.
  intros r. subst r. unfold on. split; [|split; [|split]].
  - destruct key; try reflexivity. destruct callback; try reflexivity.
    destruct (this !! s); [|reflexivity].
    now destruct (includes f (subscribers a)).
  - split.
    + destruct key as [| | | |k| |]; try discriminate.
      destruct callback as [| | | | |f|]; try discriminate.
      destruct (this !! k) as [act|] eqn:Hk; [|discriminate].
      intros _. exists k, f. rewrite Hk. eauto.
    + intros (k & f & -> & -> & [act Hk]). rewrite Hk.
      now destruct (includes f (subscribers act)).
  - intros e.
    destruct key as [| | | |k| |]; try (intros [= <-]; split; reflexivity).
    destruct callback as [| | | | |f|]; try (intros [= <-]; split; reflexivity).
    destruct (this !! k) as [act|]; [|intros [= <-]; split; reflexivity].
    now destruct (includes f (subscribers act)).
  - intros k f act -> -> Hk. rewrite Hk.
    destruct (includes f (subscribers act)) eqn:Hin; simpl.
    + split; [|reflexivity]. exists act. split; [exact Hk|].
      split; [|split; [reflexivity | auto]].
      destruct (decide (f ∈ subscribers act)) as [H|H]; [exact H|].
      apply includes_false in H. congruence.
    + split.
      * eexists. split; [apply lookup_insert_eq|]. simpl.
        split; [apply elem_of_app; right; apply list_elem_of_here|].
        split; [reflexivity|]. intros g Hg. apply elem_of_app. now left.
      * intros k' Hne. now apply lookup_insert_ne.
Qed.

Lemma on_subscribes_or_throws_witness :
  thrown (on handled (VStr "a") (VFun 3)) = None /\
  thrown (on handled (VStr "b") (VFun 3)) = Some EngineTypeError /\
  after (on handled (VStr "b") (VFun 3)) = handled.
Proof.
  destruct (on_subscribes_or_throws handled (VStr "a") (VFun 3)) as (_ & Hret & _).
  destruct (on_subscribes_or_throws handled (VStr "b") (VFun 3)) as (_ & _ & Hthrow & _).
  split; [|split].
  - apply Hret. exists "a", 3. repeat split. eexists. reflexivity.
  - reflexivity.
  - exact (proj2 (Hthrow EngineTypeError eq_refl)).
Defined.

End RegistryInvariants.

(** ** Order of notification *)

Section NotificationOrder.

Import Calls.

Lemma NoDup_push_head (l fs : list fn) f :
  NoDup (l ++ f :: fs) -> includes f l = false /\ NoDup ((l ++ [f]) ++ fs).
Proof.
  intros Hnd. split.
  - apply includes_false. intros Hin.
    apply NoDup_app in Hnd as (_ & Hdisj & _).
    apply (Hdisj f Hin). apply list_elem_of_here.
  - now rewrite <- app_assoc.
Qed.

(** Subscribers of an action are called in the order they subscribed:
    after [on(k, f)] for the functions of a list, none of them subscribed
    before or listed twice, the subscriber list of [k] is the former one
    followed by the list, the other actions are untouched, and a
    publication calls them in that order. *)
Theorem publication_follows_subscription_order (this : Actions.registry) k act fs :
  this !! k = Some act ->
  NoDup (Actions.subscribers act ++ fs) ->
  on_each this k fs !! k =
    Some {| Actions.subscribers := Actions.subscribers act ++ fs;
            Actions.func := Actions.func act |} /\
  (forall k', k' <> k -> on_each this k fs !! k' = this !! k') /\
  (forall data,
      Actions.trace (Actions.publish (on_each this k fs) k data) =
        map (fun each => Notify each data) (Actions.subscribers act ++ fs)).
Proof.
  intros Hk Hnd.
  assert (on_each this k fs !! k =
            Some {| Actions.subscribers := Actions.subscribers act ++ fs;
                    Actions.func := Actions.func act |} /\
          (forall k', k' <> k -> on_each this k fs !! k' = this !! k'))
    as [Hsubs Hothers].
  { revert this act Hk Hnd. unfold on_each.
    induction fs as [|f rest IH]; intros this act Hk Hnd; cbn [fold_left].
    - rewrite app_nil_r, action_eta. auto.
    - apply NoDup_push_head in Hnd as [Hnew Hnd].
      assert (Actions.after (Actions.on this (VStr k) (VFun f)) =
              <[k := {| Actions.subscribers := Actions.subscribers act ++ [f];
                        Actions.func := Actions.func act |}]> this) as ->.
      { unfold Actions.on. now rewrite Hk, Hnew. }
      destruct (IH (<[k := {| Actions.subscribers := Actions.subscribers act ++ [f];
                              Actions.func := Actions.func act |}]> this)
                   {| Actions.subscribers := Actions.subscribers act ++ [f];
                      Actions.func := Actions.func act |})
        as [IHk IHothers]; [apply lookup_insert_eq | exact Hnd |].
      simpl in IHk. rewrite <- app_assoc in IHk. simpl in IHk.
      split; [exact IHk|].
      intros k' Hne. rewrite IHothers by assumption. now apply lookup_insert_ne. }
  split; [exact Hsubs|]. split; [exact Hothers|].
  intros data. unfold Actions.publish. now rewrite Hsubs.
Qed.

Lemma publication_follows_subscription_order_witness :
  Actions.trace (Actions.publish (on_each Actions.subscribed "a" [4; 2; 3]) "a" VNull) =
    [Notify 1 VNull; Notify 4 VNull; Notify 2 VNull; Notify 3 VNull].
Proof.
  refine (proj2 (proj2 (publication_follows_subscription_order Actions.subscribed "a"
                          {| Actions.subscribers := [1]; Actions.func := VNull |}
                          [4; 2; 3] eq_refl _)) VNull).
  repeat constructor; simpl; intros H;
    repeat (apply elem_of_cons in H as [[=]|H]); now apply elem_of_nil in H.
Defined.

(** Subscribers of a store are called in the order they subscribed:
    after [onStateChanged(f)] for the functions of a list, none of them
    subscribed before or listed twice, the subscriber list is the former
    one followed by the list, the state is untouched, and a [setState]
    that returns calls them in that order, each with the new state. *)
Theorem notification_follows_subscription_order (this : DataStore.store) fs :
  NoDup (DataStore.subscribers this ++ fs) ->
  DataStore.subscribers (onStateChanged_each this fs) = DataStore.subscribers this ++ fs /\
  DataStore.state (onStateChanged_each this fs) = DataStore.state this /\
  (forall newState,
      let r := DataStore.setState_default (onStateChanged_each this fs) newState in
      DataStore.thrown r = None ->
      DataStore.trace r =
        map (fun each => Notify each (DataStore.state (DataStore.after r)))
            (DataStore.subscribers this ++ fs)).
Proof.
  intros Hnd.
  assert (DataStore.subscribers (onStateChanged_each this fs) =
            DataStore.subscribers this ++ fs /\
          DataStore.state (onStateChanged_each this fs) = DataStore.state this)
    as [Hsubs Hstate].
  { revert this Hnd. unfold onStateChanged_each.
    induction fs as [|f rest IH]; intros this Hnd; cbn [fold_left].
    - now rewrite app_nil_r.
    - apply NoDup_push_head in Hnd as [Hnew Hnd].
      assert (DataStore.after (DataStore.onStateChanged this (VFun f)) =
              {| DataStore.state := DataStore.state this;
                 DataStore.subscribers := DataStore.subscribers this ++ [f] |}) as ->.
      { unfold DataStore.onStateChanged. now rewrite Hnew. }
      destruct (IH {| DataStore.state := DataStore.state this;
                      DataStore.subscribers := DataStore.subscribers this ++ [f] |} Hnd)
        as [IHsubs IHstate].
      simpl in *. rewrite <- app_assoc in IHsubs. auto. }
  split; [exact Hsubs|]. split; [exact Hstate|].
  intros newState r Hret. subst r.
  destruct (setState_default_returns _ newState Hret) as [_ Ht].
  rewrite Ht, Hsubs. reflexivity.
Qed.

Lemma notification_follows_subscription_order_witness :
  DataStore.trace
    (DataStore.setState_default (onStateChanged_each DataStore.watched_store [5; 3])
                                (obj [("a", VNull)])) =
    [Notify 1 (obj []); Notify 2 (obj []); Notify 5 (obj []); Notify 3 (obj [])].
Proof.
  refine (proj2 (proj2 (notification_follows_subscription_order
                          DataStore.watched_store [5; 3] _))
            (obj [("a", VNull)]) eq_refl).
  repeat constructor; simpl; intros H;
    repeat (apply elem_of_cons in H as [[=]|H]); now apply elem_of_nil in H.
Defined.

End NotificationOrder.

(** ** More on the merge of [setState] *)

Section Merge.

Import DataStore.

Implicit Types (this : store) (newState stem item cur : value)
  (ps sp : list (string * value)) (path : list string) (key j : string)
  (calls : list event).

#[local] Arguments setState : simpl never.








Section Loop.

Variable recurse : value -> value -> value * list event * option error.






(** The stem and the exception of the loop do not depend on the calls it
    has carried along. *)
Lemma for_key_in_calls_irrelevant ps stem calls calls' :
  stem_of (for_key_in recurse ps stem calls) = stem_of (for_key_in recurse ps stem calls') /\
  exn_of (for_key_in recurse ps stem calls) = exn_of (for_key_in recurse ps stem calls').
Proof.
  revert stem calls calls'.
  induction ps as [|[key item] rest IH]; intros stem calls calls'; simpl; [auto|].
  assert (stem_of (for_key recurse stem calls key item) =
            stem_of (for_key recurse stem calls' key item) /\
          exn_of (for_key recurse stem calls key item) =
            exn_of (for_key recurse stem calls' key item)) as [Hs He].
  { unfold for_key, stem_of, exn_of.
    destruct (is_nullish item); [now destruct (delete stem key)|].
    destruct (is_object_type item); [|now destruct (put stem key item)].
    destruct (get stem key) as [cur|e]; [|auto].
    destruct (is_object_type cur); [|now destruct (put stem key item)].
    now destruct (recurse item cur) as [[cur' inner] exn]. }
  unfold stem_of, exn_of in *.
  destruct (for_key recurse stem calls key item) as [[s1 c1] e1];
    destruct (for_key recurse stem calls' key item) as [[s2 c2] e2];
    simpl in *; subst s2 e2.
  destruct e1; [auto | apply IH].
Qed.


(** What the stem is, the loop leaves it: an object stays an object of
    its class, any other value is returned as it is. *)
Lemma for_key_in_class ps stem calls :
  match stem with
  | VObj c _ => exists sp', stem_of (for_key_in recurse ps stem calls) = VObj c sp'
  | _ => stem_of (for_key_in recurse ps stem calls) = stem
  end.
Proof.
  revert stem calls.
  assert (forall stem calls key item,
             match stem with
             | VObj c _ => exists sp', stem_of (for_key recurse stem calls key item) = VObj c sp'
             | _ => stem_of (for_key recurse stem calls key item) = stem
             end) as Hstep.
  { intros stem calls key item. unfold for_key, stem_of.
    destruct stem; simpl;
      repeat match goal with
             | |- context [if ?b then _ else _] => destruct b
             | |- context [let '(_, _) := ?x in _] => destruct x as [[? ?] ?]
             end; simpl; eauto. }
  induction ps as [|[key item] rest IH]; intros stem calls; simpl.
  - destruct stem; unfold stem_of; simpl; eauto.
  - specialize (Hstep stem calls key item).
    destruct (for_key recurse stem calls key item) as [[stem' calls'] [e|]];
      unfold stem_of in *; simpl in *; [exact Hstep|].
    specialize (IH stem' calls').
    destruct stem; try (subst stem'; exact IH).
    destruct Hstep as [sp' ->]. exact IH.
Qed.

End Loop.












(** The state is always there, and [setState] does not change its kind.
    The state of a store is never [null], [undefined] or another falsy
    value.  [setState] leaves an object state an object of the same class
    (a mapping stays a mapping, an array an array), and leaves a state that
    is not an object as it is. *)
Theorem state_stays_defined this newState :
  reachable this ->
  truthy (state this) = true /\
  (forall c sp, state this = VObj c sp ->
                exists sp', state (after (setState_default this newState)) = VObj c sp') /\
  ((forall c sp, state this <> VObj c sp) ->
   state (after (setState_default this newState)) = state this).
Proof.
  assert (forall this newState,
             match state this with
             | VObj c _ => exists sp', state (after (setState_default this newState))
                                       = VObj c sp'
             | _ => state (after (setState_default this newState)) = state this
             end) as Hclass.
  { clear. intros this newState.
    destruct (setState_default_stem this newState) as (-> & _).
    destruct newState as [| | | | | |[|] ps];
      try (rewrite setState_not_mapping by reflexivity;
           unfold stem_of; simpl; destruct (state this); eauto).
    destruct (setState_loop this ps (state this) true) as [-> _].
    apply for_key_in_class. }
  intros Hreach. split; [|split].
  - clear newState.
    induction Hreach as [initState | this newState _ IH | this newState _ IH
                        | this callback _ IH | this callback _ IH].
    + simpl. now destruct (truthy initState) eqn:E.
    + specialize (Hclass this newState).
      destruct (state this); try (rewrite Hclass; exact IH).
      now destruct Hclass as [sp' ->].
    + unfold replaceState.
      destruct (negb (is_object_type newState) || is_null newState) eqn:E;
        [exact IH|]. simpl. now destruct newState.
    + unfold onStateChanged. destruct callback; try exact IH.
      now destruct (negb (includes f (subscribers this))).
    + exact IH.
  - intros c sp Hstate. specialize (Hclass this newState). now rewrite Hstate in Hclass.
  - intros Hprim. specialize (Hclass this newState).
    destruct (state this) as [| | | | | |c sp]; auto. now destruct (Hprim c sp).
Qed.

Lemma state_stays_defined_witness :
  truthy (state null_store_replaced) = true /\
  exists sp', state (after (setState_default null_store_replaced null_patch))
              = VObj ClsObject sp'.
Proof.
  assert (reachable null_store_replaced) as Hreach
    by (apply reach_replaceState, reach_onStateChanged; constructor).
  destruct (state_stays_defined null_store_replaced null_patch Hreach) as (H1 & H2 & _).
  split; [exact H1|]. exact (H2 ClsObject _ eq_refl).
Defined.

End Merge.

(** ** The distributed build *)

Section DistributedBuild.

Import Trees.

Implicit Types (this : DataStore.store) (newState stem item cur : value)
  (ps sp : list (string * value)) (key j : string) (calls : list event).

#[local] Arguments Dist.setState : simpl never.
#[local] Arguments DataStore.setState : simpl never.

Abbreviation stem_of := DataStore.stem_of.
Abbreviation calls_of := DataStore.calls_of.
Abbreviation exn_of := DataStore.exn_of.



Section Loop.

Variable recurse : value -> value -> value * list event * option error.






End Loop.





(** The distributed [call] hands its argument on: without a handler
    every subscriber of the action is called with the data given to
    [call]; with a handler, and for a name that was not declared, it does
    what [call] of the source does; and the two agree when no data is
    given. *)
Theorem dist_call_forwards_the_data (this : Actions.registry) k data :
  (forall act,
      this !! k = Some act -> typeof (Actions.func act) <> TFunction ->
      Actions.trace (Dist.call this k data) =
        map (fun each => Notify each data) (Actions.subscribers act) /\
      Actions.thrown (Dist.call this k data) = None) /\
  (forall act,
      this !! k = Some act -> typeof (Actions.func act) = TFunction ->
      Dist.call this k data = Actions.call this k data) /\
  (this !! k = None -> Dist.call this k data = Actions.call this k data) /\
  Dist.call this k VUndefined = Actions.call this k VUndefined.
Proof.
  unfold Dist.call, Actions.call, Actions.publish.
  split; [|split; [|split]].
  - intros act -> Hf.
    destruct (Actions.func act); simpl in Hf; try (now destruct Hf); split; reflexivity.
  - intros act -> Hf. destruct (Actions.func act); try discriminate. reflexivity.
  - intros ->. reflexivity.
  - destruct (this !! k) as [act|] eqn:Hk; [|reflexivity].
    destruct (Actions.func act); now rewrite ?Hk.
Qed.

Lemma dist_call_forwards_the_data_witness :
  Actions.trace (Dist.call Actions.subscribed "a" (obj [("test", VBool true)])) =
    [Notify 1 (obj [("test", VBool true)])].
Proof.
  refine (proj1 (proj1 (dist_call_forwards_the_data Actions.subscribed "a"
                          (obj [("test", VBool true)]))
                   {| Actions.subscribers := [1]; Actions.func := VNull |}
                   eq_refl _)).
  discriminate.
Defined.











End DistributedBuild.

(** ** Subscribing to a store *)

Section StoreSubscription.

Implicit Types (this : DataStore.store) (callback : value).

(** [onStateChanged] subscribes or ignores, and never throws: a value
    that is not a function, or a function already subscribed, leaves the
    store as it is and [undefined] is returned; a new function is put at
    the end of the list and returned.  The state is untouched and no
    function is called. *)
Theorem onStateChanged_subscribes_or_ignores this callback :
  let r := DataStore.onStateChanged this callback in
  DataStore.thrown r = None /\
  DataStore.trace r = [] /\
  DataStore.state (DataStore.after r) = DataStore.state this /\
  ((exists f, callback = VFun f /\ includes f (DataStore.subscribers this) = false /\
              DataStore.returned r = callback /\
              DataStore.subscribers (DataStore.after r) =
                DataStore.subscribers this ++ [f]) \/
   ((typeof callback <> TFunction \/
     exists f, callback = VFun f /\ f ∈ DataStore.subscribers this) /\
    DataStore.returned r = VUndefined /\ DataStore.after r = this)).
Proof.
  intros r. subst r. unfold DataStore.onStateChanged.
  destruct callback as [| | | | |f|];
    try (repeat split; right; split; [left; discriminate | split; reflexivity]).
  destruct (includes f (DataStore.subscribers this)) eqn:Hin; simpl;
    repeat split.
  - right. split; [|split; reflexivity]. right. exists f. split; [reflexivity|].
    destruct (decide (f ∈ DataStore.subscribers this)) as [H|H]; [exact H|].
    apply includes_false in H. congruence.
  - left. exists f. auto.
Qed.

End StoreSubscription.
